(** * LedsSwitches_C-Lang: switches mirrored on the LEDs of the RVfpga GPIO

    A shallow embedding of [LedsSwitches_C-Lang.c].  The program touches the
    outside world only through volatile accesses to three memory-mapped
    registers, so a run is described by the list of bus accesses it performs.
    The device side is a function telling which word a register presents at
    each read; the software side is a small state monad over the two local
    variables of [main] and the bus log.

    C leaves two things of this program to the implementation: the conversion
    of an [unsigned] that does not fit into [int], and [>>] on a negative
    [int].  The embedding follows the RISC-V GCC the example is built with:
    the conversion reduces modulo 2^32 into the signed range, and the shift is
    arithmetic ([srai]). *)

From Stdlib Require Import ZArith List Lia Bool.
Import ListNotations.
Local Open Scope Z_scope.

(** ** 32-bit machine integers, as [Z] with the wrap-around written out *)

Module Int32.

Definition modulus : Z := 2 ^ 32.
Definition half_modulus : Z := 2 ^ 31.

(** A value of type [unsigned]: reduction modulo 2^32.  Also the conversion
    from [int] to [unsigned]. *)
Definition to_unsigned (x : Z) : Z := x mod modulus.

(** The conversion from [unsigned] to [int]. *)
Definition to_int (u : Z) : Z :=
  let w := u mod modulus in
  if w <? half_modulus then w else w - modulus.

(** [x >> n] at type [int]: [Z.shiftr] on a signed [Z] rounds towards minus
    infinity, which is the arithmetic shift. *)
Definition shr (x n : Z) : Z := Z.shiftr x n.

Definition in_unsigned (x : Z) : Prop := 0 <= x < modulus.
Definition in_int (x : Z) : Prop := - half_modulus <= x < half_modulus.

End Int32.

(** ** The three registers *)

Definition GPIO_SWs : Z := 0x80001400.
Definition GPIO_LEDs : Z := 0x80001404.
Definition GPIO_INOUT : Z := 0x80001408.

(** ** Bus accesses and machine state *)

Inductive event : Type :=
| EvRead (addr val : Z)
| EvWrite (addr val : Z).

(** The locals of [main], the number of volatile reads performed so far, and
    the bus log in program order. *)
Record state : Type := mkState {
  En_Value : Z;
  switches_value : Z;
  reads : nat;
  bus : list event
}.

(** Power-on: nothing on the bus yet; the locals hold whatever the stack
    held. *)
Definition reset (junk_en junk_sw : Z) : state :=
  mkState junk_en junk_sw 0 [].

(** Values written to / read from one address, in program order. *)
Fixpoint writes_to (a : Z) (t : list event) : list Z :=
  match t with
  | [] => []
  | EvWrite a' v :: t' => if a' =? a then v :: writes_to a t' else writes_to a t'
  | EvRead _ _ :: t' => writes_to a t'
  end.

Fixpoint reads_of (a : Z) (t : list event) : list Z :=
  match t with
  | [] => []
  | EvRead a' v :: t' => if a' =? a then v :: reads_of a t' else reads_of a t'
  | EvWrite _ _ :: t' => reads_of a t'
  end.

(** ** The state monad *)

Definition M (A : Type) : Type := state -> A * state.

Definition ret {A : Type} (a : A) : M A := fun s => (a, s).

Definition bind {A B : Type} (m : M A) (k : A -> M B) : M B :=
  fun s => let (a, s') := m s in k a s'.

Declare Scope gpio_scope.
Delimit Scope gpio_scope with gpio.
Notation "x <- m ;; k" := (bind m (fun x => k))
  (at level 61, m at next level, right associativity) : gpio_scope.
Notation "m ;; k" := (bind m (fun _ => k))
  (at level 61, right associativity) : gpio_scope.
Local Open Scope gpio_scope.

Definition exec {A : Type} (m : M A) (s : state) : state := snd (m s).
Definition result {A : Type} (m : M A) (s : state) : A := fst (m s).

Definition get_En_Value : M Z := fun s => (En_Value s, s).
Definition get_switches_value : M Z := fun s => (switches_value s, s).

Definition set_En_Value (v : Z) : M unit :=
  fun s => (tt, mkState v (switches_value s) (reads s) (bus s)).
Definition set_switches_value (v : Z) : M unit :=
  fun s => (tt, mkState (En_Value s) v (reads s) (bus s)).

(** How a [while] ended: its condition evaluated to zero, or the fuel of the
    model ran out with the loop still going. *)
Inductive loop_end : Type := Exited | StillRunning.

Fixpoint while (fuel : nat) (cond : M Z) (body : M unit) : M loop_end :=
  match fuel with
  | O => ret StillRunning
  | S fuel' =>
      c <- cond ;;
      if c =? 0 then ret Exited
      else body ;; while fuel' cond body
  end.

Section Program.

(** [hw k a]: the word the register at address [a] presents at the [k]-th
    volatile read of the run (counting from 0). *)
Variable hw : nat -> Z -> Z.

(** [#define READ_GPIO(dir) (*(volatile unsigned *)dir)] *)
Definition READ_GPIO (dir : Z) : M Z :=
  fun s =>
    let v := Int32.to_unsigned (hw (reads s) dir) in
    (v, mkState (En_Value s) (switches_value s) (S (reads s))
                (bus s ++ [EvRead dir v])).

(** [#define WRITE_GPIO(dir, value) { (*(volatile unsigned *)dir) = (value); }]
    with [value] of type [int]. *)
Definition WRITE_GPIO (dir value : Z) : M unit :=
  fun s =>
    (tt, mkState (En_Value s) (switches_value s) (reads s)
                 (bus s ++ [EvWrite dir (Int32.to_unsigned value)])).

(** The body of the [while (1)] loop. *)
Definition loop_body : M unit :=
  v <- READ_GPIO GPIO_SWs ;;
  set_switches_value (Int32.to_int v) ;;
  x <- get_switches_value ;;
  set_switches_value (Int32.shr x 16) ;;
  y <- get_switches_value ;;
  WRITE_GPIO GPIO_LEDs y.

(** [main]; [None] when the fuel ran out inside the loop, [Some r] when
    [return(r)] was reached. *)
Definition main (fuel : nat) : M (option Z) :=
  set_En_Value 0xFFFF ;;
  e <- get_En_Value ;;
  WRITE_GPIO GPIO_INOUT e ;;
  r <- while fuel (ret 1) loop_body ;;
  match r with
  | Exited => ret (Some 0)
  | StillRunning => ret None
  end.

(** The word the switch register holds at the read of iteration [k]. *)
Definition sw (k : nat) : Z := Int32.to_unsigned (hw k GPIO_SWs).

End Program.

(** The word one iteration sends to the LEDs for a switch word [V]. *)
Definition led_of (V : Z) : Z :=
  Int32.to_unsigned (Int32.shr (Int32.to_int V) 16).

(** A register that holds the same word at every read. *)
Definition hold (V : Z) : nat -> Z -> Z := fun _ _ => V.

(** The bus log of iterations [k], [k+1], ..., [k+n-1]. *)
Fixpoint iterations (hw : nat -> Z -> Z) (k : nat) (n : nat) : list event :=
  match n with
  | O => []
  | S n' =>
      EvRead GPIO_SWs (sw hw k) :: EvWrite GPIO_LEDs (led_of (sw hw k))
        :: iterations hw (S k) n'
  end.

(** Sign extension of the low 16 bits of [x] to a 32-bit word. *)
Definition sign_extend16 (x : Z) : Z :=
  let h := x mod 2 ^ 16 in
  Int32.to_unsigned (if h <? 2 ^ 15 then h else h - 2 ^ 16).

(** The bus log of a run of [main] from power-on. *)
Definition trace (hw : nat -> Z -> Z) (fuel : nat) (junk_en junk_sw : Z)
  : list event :=
  bus (exec (main hw fuel) (reset junk_en junk_sw)).

(** What the program may do on the bus: read the switches, write the LEDs or
    the direction register. *)
Definition allowed (e : event) : Prop :=
  match e with
  | EvRead a _ => a = 0x80001400
  | EvWrite a _ => a = 0x80001404 \/ a = 0x80001408
  end.

(** How the LED word [L] relates to the switch word [V] of its iteration:
    bits 15 to 31 of [L] all repeat bit 31 of [V]. *)
Definition sign_extended (V L : Z) : Prop :=
  Z.shiftr L 16 = (if Z.testbit V 31 then 0xFFFF else 0)
  /\ (forall i, 15 <= i < 32 -> Z.testbit L i = Z.testbit V 31)
  /\ L = sign_extend16 L.

Arguments Int32.to_unsigned : simpl never.
Arguments Int32.to_int : simpl never.
Arguments Int32.shr : simpl never.

(** * Machine arithmetic *)

Module Int32Facts.
Import Int32.

Ltac unfold_int32 :=
  unfold to_unsigned, to_int, shr, in_unsigned, in_int, modulus, half_modulus in *.

Ltac div_mod_lia :=
  repeat match goal with
         | |- context [?a <? ?b] => destruct (Z.ltb_spec a b)
         | H : context [?a <? ?b] |- _ => destruct (Z.ltb_spec a b)
         end;
  Z.div_mod_to_equations; lia.

Lemma to_unsigned_range x : in_unsigned (to_unsigned x).
Proof. unfold_int32. apply Z.mod_pos_bound. reflexivity. Qed.

Lemma to_unsigned_id x : in_unsigned x -> to_unsigned x = x.
Proof. unfold_int32. intros H. now apply Z.mod_small. Qed.

Lemma to_int_range u : in_int (to_int u).
Proof. unfold_int32. cbv zeta. change (2 ^ 32) with 4294967296.
  change (2 ^ 31) with 2147483648. div_mod_lia. Qed.

Lemma to_int_small V : 0 <= V < 2 ^ 31 -> to_int V = V.
Proof. unfold_int32. cbv zeta. change (2 ^ 32) with 4294967296.
  change (2 ^ 31) with 2147483648. intros H. div_mod_lia. Qed.

Lemma to_int_large V : 2 ^ 31 <= V < 2 ^ 32 -> to_int V = V - 2 ^ 32.
Proof. unfold_int32. cbv zeta. change (2 ^ 32) with 4294967296.
  change (2 ^ 31) with 2147483648. intros H. div_mod_lia. Qed.

(** The conversion to [int] keeps the low 32 bits. *)
Lemma to_int_bits u i : 0 <= i < 32 -> Z.testbit (to_int u) i = Z.testbit u i.
Proof.
  intros Hi.
  assert (E : to_int u mod 2 ^ 32 = u mod 2 ^ 32).
  { unfold_int32. cbv zeta. change (2 ^ 32) with 4294967296.
    change (2 ^ 31) with 2147483648. div_mod_lia. }
  rewrite <- (Z.mod_pow2_bits_low (to_int u) 32 i) by lia.
  rewrite E. apply Z.mod_pow2_bits_low. lia.
Qed.

(** Bits 31 and above of an [int] all equal its sign. *)
Lemma int_high_bits x i :
  in_int x -> 31 <= i -> Z.testbit x i = (x <? 0).
Proof.
  unfold_int32. change (2 ^ 31) with 2147483648. intros Hx Hi.
  destruct (Z.ltb_spec x 0) as [Hn | Hp].
  - apply Z.bits_above_log2_neg; [assumption|].
    destruct (Z.eq_dec x (-1)) as [-> | Hne]; [simpl; lia|].
    apply Z.log2_lt_pow2; [lia|].
    apply Z.lt_le_trans with (2 ^ 31); [lia|].
    apply Z.pow_le_mono_r; lia.
  - destruct (Z.eq_dec x 0) as [-> | Hne]; [apply Z.bits_0|].
    apply Z.bits_above_log2; [assumption|].
    apply Z.log2_lt_pow2; [lia|].
    apply Z.lt_le_trans with (2 ^ 31); [lia|].
    apply Z.pow_le_mono_r; lia.
Qed.

Lemma bit31 V : in_unsigned V -> Z.testbit V 31 = (2 ^ 31 <=? V).
Proof.
  unfold_int32. intros H.
  rewrite Z.testbit_odd, Z.shiftr_div_pow2 by lia.
  change (2 ^ 32) with 4294967296 in *. change (2 ^ 31) with 2147483648.
  destruct (Z.leb_spec 2147483648 V).
  - replace (V / 2147483648) with 1; [reflexivity|].
    Z.div_mod_to_equations; lia.
  - replace (V / 2147483648) with 0; [reflexivity|].
    Z.div_mod_to_equations; lia.
Qed.

End Int32Facts.

(** * The transform of one iteration *)

Section Transform.
Import Int32 Int32Facts.

(** Bit 31 clear: the arithmetic shift is the logical one. *)
Lemma led_of_low V : 0 <= V < 2 ^ 31 -> led_of V = Z.shiftr V 16.
Proof.
  intros H. unfold led_of. rewrite to_int_small by assumption.
  unfold shr. apply to_unsigned_id. unfold in_unsigned, modulus.
  rewrite Z.shiftr_div_pow2 by lia.
  change (2 ^ 31) with 2147483648 in H. change (2 ^ 32) with 4294967296.
  change (2 ^ 16) with 65536. Z.div_mod_to_equations; lia.
Qed.

(** Bit 31 set: the shift fills the upper half with ones. *)
Lemma led_of_high V :
  2 ^ 31 <= V < 2 ^ 32 -> led_of V = V / 2 ^ 16 + 0xFFFF0000.
Proof.
  intros H. unfold led_of. rewrite to_int_large by assumption.
  unfold shr, to_unsigned, modulus. rewrite Z.shiftr_div_pow2 by lia.
  change (2 ^ 31) with 2147483648 in H.
  change (2 ^ 32) with 4294967296 in *. change (2 ^ 16) with 65536.
  Z.div_mod_to_equations; lia.
Qed.

Lemma led_of_range V : in_unsigned (led_of V).
Proof. apply to_unsigned_range. Qed.

(** Bit [i] of the LED word is bit [i + 16] of the converted switch word. *)
Lemma led_of_bits V i :
  0 <= i < 32 -> Z.testbit (led_of V) i = Z.testbit (to_int V) (i + 16).
Proof.
  intros Hi. unfold led_of, to_unsigned, modulus, shr.
  rewrite Z.mod_pow2_bits_low by lia.
  apply Z.shiftr_spec. lia.
Qed.

Lemma led_of_low_half V i :
  0 <= i < 16 -> Z.testbit (led_of V) i = Z.testbit V (i + 16).
Proof.
  intros Hi. rewrite led_of_bits by lia. apply to_int_bits. lia.
Qed.

Lemma led_of_high_half V i :
  15 <= i < 32 -> Z.testbit (led_of V) i = Z.testbit V 31.
Proof.
  intros Hi. rewrite led_of_bits by lia.
  rewrite (int_high_bits (to_int V) (i + 16)) by (apply to_int_range || lia).
  rewrite <- (to_int_bits V 31) by lia.
  symmetry. apply int_high_bits; [apply to_int_range | lia].
Qed.

Lemma led_of_to_unsigned V : led_of (to_unsigned V) = led_of V.
Proof.
  unfold led_of, to_int, to_unsigned. cbv zeta.
  rewrite Z.mod_mod; [reflexivity | discriminate].
Qed.

(** The low half of the LED word is the high half of the switch word. *)
Lemma led_of_land V :
  in_unsigned V -> Z.land (led_of V) 0xFFFF = Z.shiftr V 16.
Proof.
  intros HV. apply Z.bits_inj'. intros i Hi.
  rewrite Z.land_spec. change 0xFFFF with (Z.ones 16).
  rewrite (Z.shiftr_spec V 16 i) by assumption.
  destruct (Z_lt_ge_dec i 16) as [Hlt | Hge].
  - rewrite Z.ones_spec_low, andb_true_r by lia.
    apply led_of_low_half. lia.
  - rewrite Z.ones_spec_high, andb_false_r by lia.
    unfold in_unsigned, modulus in HV.
    symmetry. apply Z.bits_above_log2; [lia|].
    destruct (Z.eq_dec V 0) as [-> | Hne]; [simpl; lia|].
    apply Z.lt_le_trans with 32; [apply Z.log2_lt_pow2; lia | lia].
Qed.

Lemma led_of_upper V :
  Z.shiftr (led_of V) 16 = if Z.testbit V 31 then 0xFFFF else 0.
Proof.
  apply Z.bits_inj'. intros i Hi.
  rewrite Z.shiftr_spec by assumption.
  destruct (Z_lt_ge_dec i 16) as [Hlt | Hge].
  - rewrite led_of_high_half by lia.
    destruct (Z.testbit V 31).
    + change 0xFFFF with (Z.ones 16). rewrite Z.ones_spec_low; [reflexivity | lia].
    + now rewrite Z.bits_0.
  - replace (Z.testbit (led_of V) (i + 16)) with false.
    + destruct (Z.testbit V 31).
      * change 0xFFFF with (Z.ones 16). rewrite Z.ones_spec_high; [reflexivity | lia].
      * now rewrite Z.bits_0.
    + symmetry. pose proof (led_of_range V) as R. unfold in_unsigned, modulus in R.
      destruct (Z.eq_dec (led_of V) 0) as [-> | Hne]; [apply Z.bits_0|].
      apply Z.bits_above_log2; [lia|].
      apply Z.lt_le_trans with 32; [apply Z.log2_lt_pow2; lia | lia].
Qed.

(** The LED word is the sign extension of its own low half. *)
Lemma led_of_sign_extend16 V : led_of V = sign_extend16 (led_of V).
Proof.
  pose proof (to_unsigned_range V) as R. rewrite <- (led_of_to_unsigned V).
  set (U := to_unsigned V) in *. clearbody U. clear V.
  unfold in_unsigned, modulus in R. unfold sign_extend16. cbv zeta.
  destruct (Z_lt_ge_dec U (2 ^ 31)) as [Hlo | Hhi].
  - rewrite led_of_low by lia. rewrite Z.shiftr_div_pow2 by lia.
    unfold to_unsigned, modulus.
    change (2 ^ 31) with 2147483648 in *. change (2 ^ 32) with 4294967296 in *.
    change (2 ^ 16) with 65536. change (2 ^ 15) with 32768.
    destruct (Z.ltb_spec ((U / 65536) mod 65536) 32768);
      Z.div_mod_to_equations; lia.
  - rewrite led_of_high by lia.
    unfold to_unsigned, modulus.
    change (2 ^ 31) with 2147483648 in *. change (2 ^ 32) with 4294967296 in *.
    change (2 ^ 16) with 65536. change (2 ^ 15) with 32768.
    change 0xFFFF0000 with 4294901760.
    destruct (Z.ltb_spec ((U / 65536 + 4294901760) mod 65536) 32768);
      Z.div_mod_to_equations; lia.
Qed.

Lemma led_of_sign_extended V : sign_extended V (led_of V).
Proof.
  unfold sign_extended. split; [apply led_of_upper|].
  split; [intros i Hi; now apply led_of_high_half | apply led_of_sign_extend16].
Qed.

End Transform.

(** * Runs of the program *)

Section Runs.

Variable hw : nat -> Z -> Z.

(** One iteration: a read of the switches, then a write of the LEDs; the
    old content of [switches_value] is overwritten before it is used. *)
Lemma loop_body_run s :
  loop_body hw s
  = (tt, mkState (En_Value s)
                 (Int32.shr (Int32.to_int (sw hw (reads s))) 16)
                 (S (reads s))
                 ((bus s ++ [EvRead GPIO_SWs (sw hw (reads s))])
                    ++ [EvWrite GPIO_LEDs (led_of (sw hw (reads s)))])).
Proof. reflexivity. Qed.

Lemma loop_body_bus s :
  bus (exec (loop_body hw) s)
  = bus s ++ [EvRead GPIO_SWs (sw hw (reads s));
              EvWrite GPIO_LEDs (led_of (sw hw (reads s)))].
Proof.
  unfold exec. rewrite loop_body_run. simpl. now rewrite <- app_assoc.
Qed.

(** The condition [1] is never zero, so an iteration is always followed by
    the rest of the loop. *)
Lemma while_step fuel s :
  while (S fuel) (ret 1) (loop_body hw) s
  = while fuel (ret 1) (loop_body hw) (exec (loop_body hw) s).
Proof. reflexivity. Qed.

Lemma while_run fuel : forall s,
  exists x,
    while fuel (ret 1) (loop_body hw) s
    = (StillRunning,
       mkState (En_Value s) x (reads s + fuel)%nat
               (bus s ++ iterations hw (reads s) fuel)).
Proof.
  induction fuel as [| fuel IH]; intros s.
  - exists (switches_value s). cbn [while iterations]. unfold ret.
    rewrite Nat.add_0_r, app_nil_r. now destruct s.
  - rewrite while_step.
    destruct (IH (exec (loop_body hw) s)) as [x Hx]. exists x.
    rewrite Hx, loop_body_bus. unfold exec. rewrite loop_body_run.
    cbn [snd En_Value reads iterations].
    rewrite <- app_assoc, Nat.add_succ_r. reflexivity.
Qed.

Lemma main_run fuel je js :
  exists x,
    main hw fuel (reset je js)
    = (None,
       mkState 0xFFFF x fuel
               (EvWrite GPIO_INOUT 0xFFFF :: iterations hw 0 fuel)).
Proof.
  set (s1 := mkState 0xFFFF js 0 [EvWrite GPIO_INOUT 0xFFFF]).
  destruct (while_run fuel s1) as [x Hx]. exists x.
  change (main hw fuel (reset je js))
    with (let (r, s') := while fuel (ret 1) (loop_body hw) s1 in
          match r with
          | Exited => ret (Some 0)
          | StillRunning => ret None
          end s').
  rewrite Hx. reflexivity.
Qed.

Lemma trace_run fuel je js :
  trace hw fuel je js = EvWrite GPIO_INOUT 0xFFFF :: iterations hw 0 fuel.
Proof.
  unfold trace, exec. destruct (main_run fuel je js) as [x ->]. reflexivity.
Qed.

Lemma iterations_snoc n : forall k,
  iterations hw k (S n)
  = iterations hw k n
      ++ [EvRead GPIO_SWs (sw hw (k + n)); EvWrite GPIO_LEDs (led_of (sw hw (k + n)))].
Proof.
  induction n as [| n IH]; intros k.
  - cbn [iterations app]. now rewrite Nat.add_0_r.
  - change (iterations hw k (S (S n)))
      with (EvRead GPIO_SWs (sw hw k) :: EvWrite GPIO_LEDs (led_of (sw hw k))
              :: iterations hw (S k) (S n)).
    rewrite IH. cbn [iterations app]. now rewrite Nat.add_succ_r.
Qed.

Lemma iterations_reads n : forall k,
  reads_of GPIO_SWs (iterations hw k n) = map (sw hw) (seq k n).
Proof.
  induction n as [| n IH]; intros k; [reflexivity|].
  cbn [iterations reads_of seq map]. rewrite Z.eqb_refl, IH. reflexivity.
Qed.

Lemma iterations_leds n : forall k,
  writes_to GPIO_LEDs (iterations hw k n)
  = map led_of (reads_of GPIO_SWs (iterations hw k n)).
Proof.
  induction n as [| n IH]; intros k; [reflexivity|].
  cbn [iterations reads_of writes_to map]. rewrite !Z.eqb_refl.
  cbn [map]. now rewrite IH.
Qed.

Lemma iterations_allowed n : forall k, Forall allowed (iterations hw k n).
Proof.
  induction n as [| n IH]; intros k; [constructor|].
  cbn [iterations]. constructor; [reflexivity|].
  constructor; [left; reflexivity | apply IH].
Qed.

(** Writes of an iteration go to the LEDs only. *)
Lemma iterations_writes a n : forall k,
  a <> GPIO_LEDs -> writes_to a (iterations hw k n) = [].
Proof.
  induction n as [| n IH]; intros k Ha; [reflexivity|].
  cbn [iterations writes_to].
  destruct (Z.eqb_spec GPIO_LEDs a) as [E | _]; [congruence | now apply IH].
Qed.

Lemma iterations_sign_extended n : forall k,
  Forall2 sign_extended (reads_of GPIO_SWs (iterations hw k n))
          (writes_to GPIO_LEDs (iterations hw k n)).
Proof.
  induction n as [| n IH]; intros k; [constructor|].
  cbn [iterations reads_of writes_to]. rewrite !Z.eqb_refl.
  constructor; [apply led_of_sign_extended | apply IH].
Qed.

End Runs.

(** * Sample runs *)

Example iteration_1234 :
  loop_body (hold 0x12340000) (reset 7 9)
  = (tt, mkState 7 0x1234 1 [EvRead GPIO_SWs 0x12340000; EvWrite GPIO_LEDs 0x1234]).
Proof. reflexivity. Qed.

(** All switches off, for three iterations. *)
Example run_switches_off :
  main (hold 0) 3 (reset 7 9)
  = (None,
     mkState 0xFFFF 0 3
             [EvWrite GPIO_INOUT 0xFFFF;
              EvRead GPIO_SWs 0; EvWrite GPIO_LEDs 0;
              EvRead GPIO_SWs 0; EvWrite GPIO_LEDs 0;
              EvRead GPIO_SWs 0; EvWrite GPIO_LEDs 0]).
Proof. reflexivity. Qed.

(** A register stuck at 0xFFFFFFFF: [switches_value] ends as -1. *)
Example run_all_ones :
  main (hold 0xFFFFFFFF) 2 (reset 7 9)
  = (None,
     mkState 0xFFFF (-1) 2
             [EvWrite GPIO_INOUT 0xFFFF;
              EvRead GPIO_SWs 0xFFFFFFFF; EvWrite GPIO_LEDs 0xFFFFFFFF;
              EvRead GPIO_SWs 0xFFFFFFFF; EvWrite GPIO_LEDs 0xFFFFFFFF]).
Proof. reflexivity. Qed.

(** Switches that change between reads. *)
Example run_changing_switches :
  trace (fun k _ => Z.of_nat k * 0x40000000) 4 0 0
  = [EvWrite GPIO_INOUT 0xFFFF;
     EvRead GPIO_SWs 0x00000000; EvWrite GPIO_LEDs 0x00000000;
     EvRead GPIO_SWs 0x40000000; EvWrite GPIO_LEDs 0x00004000;
     EvRead GPIO_SWs 0x80000000; EvWrite GPIO_LEDs 0xFFFF8000;
     EvRead GPIO_SWs 0xC0000000; EvWrite GPIO_LEDs 0xFFFFC000].
Proof. reflexivity. Qed.

(** * Properties of one loop iteration *)

Section Iteration.
Import Int32 Int32Facts.

Variable hw : nat -> Z -> Z.

(** An iteration that finds the word [V] in the switch register logs the
    read of [V] and the write of [led_of V]. *)
Lemma iteration_bus s V :
  in_unsigned V -> hw (reads s) GPIO_SWs = V ->
  bus (exec (loop_body hw) s)
  = bus s ++ [EvRead GPIO_SWs V; EvWrite GPIO_LEDs (led_of V)].
Proof.
  intros HV Hhw. rewrite loop_body_bus. unfold sw.
  rewrite Hhw, to_unsigned_id by assumption. reflexivity.
Qed.

Lemma bit31_clear V : in_unsigned V -> Z.testbit V 31 = false -> 0 <= V < 2 ^ 31.
Proof.
  intros HV Hb. rewrite bit31 in Hb by assumption.
  unfold in_unsigned in HV. apply Z.leb_gt in Hb. lia.
Qed.

Lemma bit31_set V : in_unsigned V -> Z.testbit V 31 = true -> 2 ^ 31 <= V < 2 ^ 32.
Proof.
  intros HV Hb. rewrite bit31 in Hb by assumption.
  unfold in_unsigned, modulus in HV. apply Z.leb_le in Hb. lia.
Qed.

(** C1, as amended: for every 32-bit word [V] with its lower 16 bits zero
    that the switch register (0x80001400) holds at the start of an
    iteration, the word [L] written to the LED register (0x80001404) at the
    end of that iteration is [V] shifted right by 16 arithmetically: its
    lower 16 bits are [V] logically shifted right by 16; when bit 31 of [V]
    is clear, [L] is that logical shift and its upper 16 bits are zero; when
    bit 31 of [V] is set, the upper 16 bits of [L] are all one. *)
Theorem C1_iteration_shifts_switches s V :
  in_unsigned V -> V mod 2 ^ 16 = 0 -> hw (reads s) GPIO_SWs = V ->
  exists L,
    bus (exec (loop_body hw) s)
    = bus s ++ [EvRead GPIO_SWs V; EvWrite GPIO_LEDs L]
    /\ Z.land L 0xFFFF = Z.shiftr V 16
    /\ (Z.testbit V 31 = false -> L = Z.shiftr V 16 /\ Z.shiftr L 16 = 0)
    /\ (Z.testbit V 31 = true ->
        L = Z.shiftr V 16 + 0xFFFF0000 /\ Z.shiftr L 16 = 0xFFFF).
Proof.
  intros HV _ Hhw. exists (led_of V).
  split; [now apply iteration_bus|].
  split; [now apply led_of_land|].
  split; intros Hb.
  - split; [apply led_of_low; now apply bit31_clear|].
    now rewrite led_of_upper, Hb.
  - split; [|now rewrite led_of_upper, Hb].
    rewrite led_of_high by now apply bit31_set.
    now rewrite Z.shiftr_div_pow2.
Qed.

(** C2, as amended: if the switch register holds 0xFFFF0000 when it is read
    in an iteration, the word written to the LED register in that iteration
    is 0xFFFFFFFF. *)
Theorem C2_all_switches_on s :
  hw (reads s) GPIO_SWs = 0xFFFF0000 ->
  bus (exec (loop_body hw) s)
  = bus s ++ [EvRead GPIO_SWs 0xFFFF0000; EvWrite GPIO_LEDs 0xFFFFFFFF].
Proof.
  intros Hhw. rewrite (iteration_bus s 0xFFFF0000); [reflexivity | | assumption].
  unfold in_unsigned, modulus. lia.
Qed.

(** C6: if the switch register holds 0x12340000 when it is read in an
    iteration, the word written to the LED register in that iteration is
    0x00001234. *)
Theorem C6_switches_1234 s :
  hw (reads s) GPIO_SWs = 0x12340000 ->
  bus (exec (loop_body hw) s)
  = bus s ++ [EvRead GPIO_SWs 0x12340000; EvWrite GPIO_LEDs 0x00001234].
Proof.
  intros Hhw. rewrite (iteration_bus s 0x12340000); [reflexivity | | assumption].
  unfold in_unsigned, modulus. lia.
Qed.

(** C8: the shifted variable is an [int], so the shift is arithmetic: for
    every 32-bit word [V] with bit 31 set read from the switch register, the
    word [L] written to the LED register is [V / 2^16 + 0xFFFF0000], a
    32-bit word whose upper 16 bits are all one and whose lower 16 bits are
    the upper 16 bits of [V]. *)
Theorem C8_shift_is_arithmetic s V :
  in_unsigned V -> Z.testbit V 31 = true -> hw (reads s) GPIO_SWs = V ->
  exists L,
    bus (exec (loop_body hw) s)
    = bus s ++ [EvRead GPIO_SWs V; EvWrite GPIO_LEDs L]
    /\ L = V / 2 ^ 16 + 0xFFFF0000
    /\ in_unsigned L
    /\ Z.shiftr L 16 = 0xFFFF
    /\ Z.land L 0xFFFF = Z.shiftr V 16.
Proof.
  intros HV Hb Hhw. exists (led_of V).
  split; [now apply iteration_bus|].
  split; [apply led_of_high; now apply bit31_set|].
  split; [apply led_of_range|].
  split; [now rewrite led_of_upper, Hb | now apply led_of_land].
Qed.

End Iteration.

(** At 0x80000000 the LED word is 0xFFFF8000, not the zero-extended 0x8000. *)
Lemma C1_counterexample :
  Int32.in_unsigned 0x80000000
  /\ 0x80000000 mod 2 ^ 16 = 0
  /\ bus (exec (loop_body (hold 0x80000000)) (reset 0 0))
     = [EvRead GPIO_SWs 0x80000000; EvWrite GPIO_LEDs 0xFFFF8000]
  /\ 0xFFFF8000 <> Z.shiftr 0x80000000 16
  /\ Z.shiftr 0xFFFF8000 16 <> 0.
Proof.
  unfold Int32.in_unsigned, Int32.modulus.
  repeat split; try reflexivity; try discriminate.
Qed.

Lemma C1_witness :
  Int32.in_unsigned 0xABCD0000
  /\ 0xABCD0000 mod 2 ^ 16 = 0
  /\ exists L,
      bus (exec (loop_body (hold 0xABCD0000)) (reset 0 0))
      = bus (reset 0 0) ++ [EvRead GPIO_SWs 0xABCD0000; EvWrite GPIO_LEDs L]
      /\ Z.land L 0xFFFF = Z.shiftr 0xABCD0000 16
      /\ (Z.testbit 0xABCD0000 31 = false ->
          L = Z.shiftr 0xABCD0000 16 /\ Z.shiftr L 16 = 0)
      /\ (Z.testbit 0xABCD0000 31 = true ->
          L = Z.shiftr 0xABCD0000 16 + 0xFFFF0000 /\ Z.shiftr L 16 = 0xFFFF).
Proof.
  assert (R : Int32.in_unsigned 0xABCD0000)
    by (unfold Int32.in_unsigned, Int32.modulus; lia).
  split; [exact R|]. split; [reflexivity|].
  apply (C1_iteration_shifts_switches (hold 0xABCD0000) (reset 0 0) 0xABCD0000);
    [exact R | reflexivity | reflexivity].
Defined.

(** With every switch on, the one LED write of the first iteration carries
    0xFFFFFFFF. *)
Lemma C2_counterexample :
  hold 0xFFFF0000 0%nat GPIO_SWs = 0xFFFF0000
  /\ writes_to GPIO_LEDs (bus (exec (loop_body (hold 0xFFFF0000)) (reset 0 0)))
     = [0xFFFFFFFF]
  /\ 0xFFFFFFFF <> 0x0000FFFF.
Proof. repeat split; try reflexivity; discriminate. Qed.

Lemma C2_witness :
  hold 0xFFFF0000 (reads (reset 3 5)) GPIO_SWs = 0xFFFF0000
  /\ bus (exec (loop_body (hold 0xFFFF0000)) (reset 3 5))
     = bus (reset 3 5) ++ [EvRead GPIO_SWs 0xFFFF0000; EvWrite GPIO_LEDs 0xFFFFFFFF].
Proof.
  split; [reflexivity|].
  apply (C2_all_switches_on (hold 0xFFFF0000) (reset 3 5)). reflexivity.
Defined.

Lemma C6_witness :
  hold 0x12340000 (reads (reset 3 5)) GPIO_SWs = 0x12340000
  /\ bus (exec (loop_body (hold 0x12340000)) (reset 3 5))
     = bus (reset 3 5) ++ [EvRead GPIO_SWs 0x12340000; EvWrite GPIO_LEDs 0x00001234].
Proof.
  split; [reflexivity|].
  apply (C6_switches_1234 (hold 0x12340000) (reset 3 5)). reflexivity.
Defined.

Lemma C8_witness :
  Int32.in_unsigned 0x80010000
  /\ Z.testbit 0x80010000 31 = true
  /\ exists L,
      bus (exec (loop_body (hold 0x80010000)) (reset 0 0))
      = bus (reset 0 0) ++ [EvRead GPIO_SWs 0x80010000; EvWrite GPIO_LEDs L]
      /\ L = 0x80010000 / 2 ^ 16 + 0xFFFF0000
      /\ Int32.in_unsigned L
      /\ Z.shiftr L 16 = 0xFFFF
      /\ Z.land L 0xFFFF = Z.shiftr 0x80010000 16.
Proof.
  assert (R : Int32.in_unsigned 0x80010000)
    by (unfold Int32.in_unsigned, Int32.modulus; lia).
  split; [exact R|]. split; [reflexivity|].
  apply (C8_shift_is_arithmetic (hold 0x80010000) (reset 0 0) 0x80010000);
    [exact R | reflexivity | reflexivity].
Defined.

(** * Properties of whole runs *)

Section Executions.

Variable hw : nat -> Z -> Z.
Variable fuel : nat.
Variables junk_en junk_sw : Z.

Local Abbreviation t := (trace hw fuel junk_en junk_sw).

Lemma trace_direction_writes : writes_to GPIO_INOUT t = [0xFFFF].
Proof.
  rewrite trace_run. cbn [writes_to]. rewrite Z.eqb_refl.
  rewrite iterations_writes; [reflexivity | discriminate].
Qed.

Lemma trace_reads : reads_of GPIO_SWs t = map (sw hw) (seq 0 fuel).
Proof.
  rewrite trace_run. cbn [reads_of]. apply iterations_reads.
Qed.

Lemma trace_leds : writes_to GPIO_LEDs t = map led_of (reads_of GPIO_SWs t).
Proof.
  rewrite trace_run. cbn [reads_of writes_to].
  change (GPIO_INOUT =? GPIO_LEDs) with false. cbv iota.
  apply iterations_leds.
Qed.

(** The whole log is rebuilt from the words read from the switches. *)
Lemma trace_from_reads :
  t = EvWrite GPIO_INOUT 0xFFFF
      :: flat_map (fun V => [EvRead GPIO_SWs V; EvWrite GPIO_LEDs (led_of V)])
                  (reads_of GPIO_SWs t).
Proof.
  rewrite trace_run. cbn [reads_of]. f_equal.
  generalize 0%nat as k. induction fuel as [| n IH]; intros k; [reflexivity|].
  cbn [iterations reads_of]. rewrite Z.eqb_refl. cbn [flat_map app].
  now rewrite <- IH.
Qed.

(** C3, as amended: the one startup write to the direction register
    (0x80001408) stores the mask 0x0000FFFF: bits 0 to 15 are set and bits
    16 to 31 are clear. *)
Theorem C3_direction_mask :
  exists m,
    writes_to GPIO_INOUT t = [m]
    /\ m = 0x0000FFFF
    /\ forall i, Z.testbit m i = (0 <=? i) && (i <? 16).
Proof.
  exists 0xFFFF. split; [apply trace_direction_writes|].
  split; [reflexivity|]. intros i.
  destruct (Z.leb_spec 0 i) as [Hp | Hn]; [|now rewrite Z.testbit_neg_r].
  change 0xFFFF with (Z.ones 16).
  destruct (Z.ltb_spec i 16).
  - apply Z.ones_spec_low. lia.
  - apply Z.ones_spec_high. lia.
Qed.

(** C4: in every execution the direction register (0x80001408) is written
    exactly once; that write is the first bus access, so it precedes every
    read of the switch register (0x80001400), and nothing after it writes
    the direction register again. *)
Theorem C4_direction_written_once_first :
  exists m rest,
    t = EvWrite 0x80001408 m :: rest
    /\ writes_to 0x80001408 rest = []
    /\ writes_to 0x80001408 t = [m]
    /\ reads_of 0x80001400 rest = reads_of 0x80001400 t.
Proof.
  exists 0xFFFF, (iterations hw 0 fuel).
  change 0x80001408 with GPIO_INOUT. change 0x80001400 with GPIO_SWs.
  split; [apply trace_run|].
  split; [apply iterations_writes; discriminate|].
  split; [apply trace_direction_writes|].
  now rewrite trace_run.
Qed.

(** C5: the loop never terminates: whatever words the switch register
    holds, and for every amount of fuel, the run is still inside the loop
    ([return] is not reached) and has completed exactly [fuel] iterations;
    one more unit of fuel lets it perform one more iteration. *)
Theorem C5_loop_never_exits :
  result (main hw fuel) (reset junk_en junk_sw) = None
  /\ (forall s, result (while fuel (ret 1) (loop_body hw)) s = StillRunning)
  /\ reads (exec (main hw fuel) (reset junk_en junk_sw)) = fuel
  /\ length (writes_to GPIO_LEDs t) = fuel
  /\ trace hw (S fuel) junk_en junk_sw
     = t ++ [EvRead GPIO_SWs (sw hw fuel); EvWrite GPIO_LEDs (led_of (sw hw fuel))].
Proof.
  destruct (main_run hw fuel junk_en junk_sw) as [x Hx].
  split; [unfold result; now rewrite Hx|].
  split.
  { intros s. destruct (while_run hw fuel s) as [y Hy].
    unfold result. now rewrite Hy. }
  split; [unfold exec; now rewrite Hx|].
  split.
  - rewrite trace_leds, trace_reads. now rewrite !length_map, length_seq.
  - rewrite !trace_run, iterations_snoc. reflexivity.
Qed.

(** C7: the program never writes the switch register (0x80001400): every
    write goes to the LED register (0x80001404) or to the direction register
    (0x80001408), and every read is a read of 0x80001400. *)
Theorem C7_bus_accesses :
  Forall allowed t
  /\ writes_to 0x80001400 t = []
  /\ reads_of 0x80001404 t = []
  /\ reads_of 0x80001408 t = [].
Proof.
  assert (A : Forall allowed t).
  { rewrite trace_run.
    constructor; [right; reflexivity | apply iterations_allowed]. }
  split; [exact A|].
  revert A. generalize t as l.
  induction l as [| e l IH]; intros A; [repeat split|].
  inversion A as [| ? ? He Hl]; subst. destruct (IH Hl) as (W & R1 & R2).
  destruct e as [a v | a v]; cbn [allowed] in He; cbn [writes_to reads_of].
  - subst a. repeat split; assumption.
  - destruct He; subst a; repeat split; assumption.
Qed.

(** C10: every word written to the LED register is the sign extension of a
    16-bit value: paired with the switch word read in its iteration, its
    upper 16 bits are all one when bit 31 of that switch word is set and all
    zero otherwise. *)
Theorem C10_led_words_sign_extended :
  Forall2 sign_extended (reads_of GPIO_SWs t) (writes_to GPIO_LEDs t).
Proof.
  rewrite trace_run. cbn [reads_of writes_to].
  change (GPIO_INOUT =? GPIO_LEDs) with false. cbv iota.
  apply iterations_sign_extended.
Qed.

End Executions.

(** C9: no state is carried from one iteration to the next: the bus log of a
    run is rebuilt from the words its reads of the switch register returned,
    each LED write being [led_of] of the switch word read just before it; so
    two runs whose switch reads return the same sequence write the same
    sequence to the LED register, whatever else differs between them. *)
Theorem C9_leds_depend_on_switch_reads_only
    hw1 hw2 n1 n2 junk_en1 junk_sw1 junk_en2 junk_sw2 :
  reads_of GPIO_SWs (trace hw1 n1 junk_en1 junk_sw1)
  = reads_of GPIO_SWs (trace hw2 n2 junk_en2 junk_sw2) ->
  writes_to GPIO_LEDs (trace hw1 n1 junk_en1 junk_sw1)
  = writes_to GPIO_LEDs (trace hw2 n2 junk_en2 junk_sw2)
  /\ trace hw1 n1 junk_en1 junk_sw1 = trace hw2 n2 junk_en2 junk_sw2
  /\ trace hw1 n1 junk_en1 junk_sw1
     = EvWrite GPIO_INOUT 0xFFFF
       :: flat_map (fun V => [EvRead GPIO_SWs V; EvWrite GPIO_LEDs (led_of V)])
                   (reads_of GPIO_SWs (trace hw1 n1 junk_en1 junk_sw1)).
Proof.
  intros H.
  split; [now rewrite !trace_leds, H|].
  split; [|apply trace_from_reads].
  rewrite (trace_from_reads hw1), (trace_from_reads hw2). now rewrite H.
Qed.

(** A device whose other registers hold something else than its switches. *)
Lemma C9_witness :
  let hw1 := hold 0x12340000 in
  let hw2 := fun (k : nat) (a : Z) => if a =? GPIO_SWs then 0x12340000 else 7 in
  reads_of GPIO_SWs (trace hw1 2 0 0) = reads_of GPIO_SWs (trace hw2 2 5 (-1))
  /\ writes_to GPIO_LEDs (trace hw1 2 0 0) = [0x1234; 0x1234]
  /\ writes_to GPIO_LEDs (trace hw1 2 0 0) = writes_to GPIO_LEDs (trace hw2 2 5 (-1)).
Proof.
  intros hw1 hw2.
  split; [reflexivity|]. split; [reflexivity|].
  apply (C9_leds_depend_on_switch_reads_only hw1 hw2 2 2 0 0 5 (-1)).
  reflexivity.
Defined.

(** The mask leaves bit 16 clear. *)
Lemma C3_counterexample :
  writes_to GPIO_INOUT (trace (hold 0) 1 0 0) = [0x0000FFFF]
  /\ Z.testbit 0x0000FFFF 16 = false
  /\ 0x0000FFFF <> 0xFFFFFFFF.
Proof. repeat split; try reflexivity; discriminate. Qed.


(** * Further properties of the loop *)

Section Halves.
Import Int32 Int32Facts.

Lemma shifted_int_range u : - 2 ^ 15 <= shr (to_int u) 16 < 2 ^ 15.
Proof.
  pose proof (to_int_range u) as R. unfold in_int, half_modulus in R.
  unfold shr. rewrite Z.shiftr_div_pow2 by lia.
  change (2 ^ 31) with 2147483648 in R. change (2 ^ 16) with 65536.
  change (2 ^ 15) with 32768. Z.div_mod_to_equations; lia.
Qed.

(** Words with the same upper half light the same LEDs. *)
Lemma led_of_upper_half V1 V2 :
  in_unsigned V1 -> in_unsigned V2 ->
  (led_of V1 = led_of V2 <-> Z.shiftr V1 16 = Z.shiftr V2 16).
Proof.
  intros H1 H2. split; intros E.
  - rewrite <- (led_of_land V1), <- (led_of_land V2) by assumption. now rewrite E.
  - rewrite !Z.shiftr_div_pow2 in E by lia.
    unfold in_unsigned, modulus in H1, H2.
    destruct (Z_lt_ge_dec V1 (2 ^ 31)) as [L1 | G1];
      destruct (Z_lt_ge_dec V2 (2 ^ 31)) as [L2 | G2].
    + rewrite !led_of_low by lia. now rewrite !Z.shiftr_div_pow2 by lia.
    + exfalso. change (2 ^ 31) with 2147483648 in *.
      change (2 ^ 32) with 4294967296 in *. change (2 ^ 16) with 65536 in *.
      Z.div_mod_to_equations; lia.
    + exfalso. change (2 ^ 31) with 2147483648 in *.
      change (2 ^ 32) with 4294967296 in *. change (2 ^ 16) with 65536 in *.
      Z.div_mod_to_equations; lia.
    + rewrite !led_of_high by lia. now rewrite E.
Qed.

End Halves.

Section Lights.
Import Int32 Int32Facts.

Variable hw : nat -> Z -> Z.

Lemma sw_range k : in_unsigned (sw hw k).
Proof. apply to_unsigned_range. Qed.

Lemma writes_to_app a l1 l2 :
  writes_to a (l1 ++ l2) = writes_to a l1 ++ writes_to a l2.
Proof.
  induction l1 as [| [b v | b v] l1 IH]; cbn [app writes_to]; [reflexivity | assumption |].
  destruct (b =? a); cbn [app]; now rewrite IH.
Qed.

Lemma iterations_low_half n : forall k,
  Forall2 (fun V L => Z.land L 0xFFFF = Z.shiftr V 16)
          (reads_of GPIO_SWs (iterations hw k n))
          (writes_to GPIO_LEDs (iterations hw k n)).
Proof.
  induction n as [| n IH]; intros k; [constructor|].
  cbn [iterations reads_of writes_to]. rewrite !Z.eqb_refl.
  constructor; [apply led_of_land, sw_range | apply IH].
Qed.

Lemma iterations_app n : forall k p,
  iterations hw k (n + p)
  = iterations hw k n ++ iterations hw (k + n) p.
Proof.
  induction n as [| n IH]; intros k p.
  - cbn [Nat.add iterations app]. now rewrite Nat.add_0_r.
  - cbn [Nat.add iterations app]. rewrite IH. now rewrite Nat.add_succ_r.
Qed.

Lemma iterations_length n : forall k, length (iterations hw k n) = (2 * n)%nat.
Proof.
  induction n as [| n IH]; intros k; [reflexivity|].
  cbn [iterations length]. rewrite IH. lia.
Qed.


(** [switches_value] after at least one iteration: the shifted reading of the
    last one. *)
Lemma while_switches_value fuel : forall s,
  switches_value (exec (while (S fuel) (ret 1) (loop_body hw)) s)
  = shr (to_int (sw hw (reads s + fuel))) 16.
Proof.
  induction fuel as [| fuel IH]; intros s.
  - rewrite Nat.add_0_r. reflexivity.
  - unfold exec in *. rewrite while_step. unfold exec. rewrite IH.
    rewrite loop_body_run. cbn [snd reads]. now rewrite Nat.add_succ_r.
Qed.

Lemma while_En_Value fuel : forall s,
  En_Value (exec (while fuel (ret 1) (loop_body hw)) s) = En_Value s.
Proof.
  intros s. destruct (while_run hw fuel s) as [x Hx].
  unfold exec. now rewrite Hx.
Qed.

End Lights.

Lemma main_exec hw fuel je js :
  exec (main hw fuel) (reset je js)
  = exec (while fuel (ret 1) (loop_body hw))
         (mkState 0xFFFF js 0 [EvWrite GPIO_INOUT 0xFFFF]).
Proof.
  unfold exec.
  change (main hw fuel (reset je js))
    with (let (r, s') := while fuel (ret 1) (loop_body hw)
                               (mkState 0xFFFF js 0 [EvWrite GPIO_INOUT 0xFFFF]) in
          match r with
          | Exited => ret (Some 0)
          | StillRunning => ret None
          end s').
  destruct (while fuel (ret 1) (loop_body hw) _) as [[|] s']; reflexivity.
Qed.

(** X1: on the pins the direction mask enables as outputs, every LED write
    shows the upper half of the switch word read in its iteration: masking
    the LED word with the word written to the direction register gives the
    switch word shifted right by 16, whatever the switch register held,
    lower half included. *)
Theorem X1_masked_leds_show_switches hw fuel junk_en junk_sw :
  exists m,
    writes_to GPIO_INOUT (trace hw fuel junk_en junk_sw) = [m]
    /\ Forall2 (fun V L => Z.land L m = Z.shiftr V 16)
               (reads_of GPIO_SWs (trace hw fuel junk_en junk_sw))
               (writes_to GPIO_LEDs (trace hw fuel junk_en junk_sw)).
Proof.
  exists 0xFFFF. split; [apply trace_direction_writes|].
  rewrite trace_run. cbn [reads_of writes_to].
  change (GPIO_INOUT =? GPIO_LEDs) with false. cbv iota.
  apply iterations_low_half.
Qed.

(** X2: two iterations write the same word to the LEDs exactly when the
    switch words they read have the same upper 16 bits: the lower half of
    the switch register never reaches the LEDs, and the upper half is never
    lost. *)
Theorem X2_leds_follow_upper_half hw1 hw2 s1 s2 V1 V2 :
  Int32.in_unsigned V1 -> Int32.in_unsigned V2 ->
  hw1 (reads s1) GPIO_SWs = V1 -> hw2 (reads s2) GPIO_SWs = V2 ->
  exists L1 L2,
    bus (exec (loop_body hw1) s1)
    = bus s1 ++ [EvRead GPIO_SWs V1; EvWrite GPIO_LEDs L1]
    /\ bus (exec (loop_body hw2) s2)
       = bus s2 ++ [EvRead GPIO_SWs V2; EvWrite GPIO_LEDs L2]
    /\ (L1 = L2 <-> Z.shiftr V1 16 = Z.shiftr V2 16).
Proof.
  intros R1 R2 E1 E2. exists (led_of V1), (led_of V2).
  split; [now apply iteration_bus|].
  split; [now apply iteration_bus | now apply led_of_upper_half].
Qed.

Lemma X2_witness :
  Int32.in_unsigned 0x8001BEEF
  /\ Int32.in_unsigned 0x80010000
  /\ exists L1 L2,
      bus (exec (loop_body (hold 0x8001BEEF)) (reset 1 2))
      = bus (reset 1 2) ++ [EvRead GPIO_SWs 0x8001BEEF; EvWrite GPIO_LEDs L1]
      /\ bus (exec (loop_body (hold 0x80010000)) (reset 3 4))
         = bus (reset 3 4) ++ [EvRead GPIO_SWs 0x80010000; EvWrite GPIO_LEDs L2]
      /\ (L1 = L2 <-> Z.shiftr 0x8001BEEF 16 = Z.shiftr 0x80010000 16).
Proof.
  assert (R1 : Int32.in_unsigned 0x8001BEEF)
    by (unfold Int32.in_unsigned, Int32.modulus; lia).
  assert (R2 : Int32.in_unsigned 0x80010000)
    by (unfold Int32.in_unsigned, Int32.modulus; lia).
  split; [exact R1|]. split; [exact R2|].
  apply (X2_leds_follow_upper_half (hold 0x8001BEEF) (hold 0x80010000)
           (reset 1 2) (reset 3 4) 0x8001BEEF 0x80010000);
    [exact R1 | exact R2 | reflexivity | reflexivity].
Defined.

(** X3: the locals after a run of at least one iteration: [En_Value] still
    holds 0xFFFF (the loop never assigns it), [switches_value] holds the
    shifted reading of the last iteration, which lies in the signed 16-bit
    range, and the last word written to the LEDs is [switches_value]
    converted to [unsigned]. *)
Theorem X3_locals_after_iterations hw fuel junk_en junk_sw :
  let s := exec (main hw (S fuel)) (reset junk_en junk_sw) in
  En_Value s = 0xFFFF
  /\ switches_value s = Z.shiftr (Int32.to_int (sw hw fuel)) 16
  /\ - 2 ^ 15 <= switches_value s < 2 ^ 15
  /\ last (writes_to GPIO_LEDs (bus s)) 0
     = Int32.to_unsigned (switches_value s).
Proof.
  intros s.
  assert (Esv : switches_value s = Int32.shr (Int32.to_int (sw hw fuel)) 16).
  { unfold s. rewrite main_exec. now rewrite while_switches_value. }
  split; [unfold s; rewrite main_exec; now rewrite while_En_Value|].
  split; [exact Esv|].
  split; [rewrite Esv; apply shifted_int_range|].
  rewrite Esv. change (bus s) with (trace hw (S fuel) junk_en junk_sw).
  rewrite trace_run, iterations_snoc.
  cbn [Nat.add]. rewrite app_comm_cons.
  change [EvRead GPIO_SWs (sw hw fuel); EvWrite GPIO_LEDs (led_of (sw hw fuel))]
    with ([EvRead GPIO_SWs (sw hw fuel)] ++ [EvWrite GPIO_LEDs (led_of (sw hw fuel))]).
  rewrite app_assoc.
  rewrite writes_to_app. cbn [writes_to]. rewrite Z.eqb_refl.
  now rewrite last_last.
Qed.



(** X5: a longer run extends a shorter one: the bus log after [m] iterations
    is the log after [n <= m] iterations followed by two accesses for each
    further iteration, none of them a write to the direction register. *)
Theorem X5_longer_run_extends hw n m junk_en junk_sw :
  (n <= m)%nat ->
  exists rest,
    trace hw m junk_en junk_sw = trace hw n junk_en junk_sw ++ rest
    /\ length rest = (2 * (m - n))%nat
    /\ writes_to GPIO_INOUT rest = [].
Proof.
  intros Hnm. exists (iterations hw n (m - n)).
  rewrite !trace_run.
  replace m with (n + (m - n))%nat at 1 by lia.
  rewrite iterations_app. cbn [Nat.add app].
  split; [reflexivity|].
  split; [apply iterations_length | apply iterations_writes; discriminate].
Qed.

Lemma X5_witness :
  (1 <= 3)%nat
  /\ exists rest,
      trace (hold 0x12340000) 3 0 0 = trace (hold 0x12340000) 1 0 0 ++ rest
      /\ length rest = (2 * (3 - 1))%nat
      /\ writes_to GPIO_INOUT rest = [].
Proof.
  split; [lia|].
  apply (X5_longer_run_extends (hold 0x12340000) 1 3 0 0). lia.
Defined.
